(** * The remote-module resolver plugin [http()] of niht-chef

    Shallow embedding of the rollup plugin returned by [http()] in
    [src/index.js] (lines 235-278) and of its copy in
    [src/unnamed/part_000] (lines 180-221).

    The plugin closes over one mutable JS [Map] ([urls]) from short
    identifiers to records [{isHttps, url}].  The two hooks [resolveId]
    and [load] are modelled as functions in explicit state-passing style
    over a state holding that map and the trace of outbound network
    requests issued through [follow-redirects]. *)

From stdpp Require Import base gmap strings list.
From Stdlib Require Import ZArith Ascii String.

Open Scope Z_scope.

(** ** JavaScript string primitives used by [resolveId] *)

(** [s.lastIndexOf(c)] for a one-character needle: the index of the last
    occurrence of [c] in [s], or [-1]. *)
Fixpoint js_lastIndexOf (c : ascii) (s : string) : Z :=
  match s with
  | EmptyString => -1
  | String a s' =>
      let r := js_lastIndexOf c s' in
      if 0 <=? r then r + 1
      else if ascii_dec a c then 0 else -1
  end.

(** [s.substr(start)] (one argument): a negative start counts from the
    end (clamped at 0); the result runs to the end of the string. *)
Definition js_substr (s : string) (start : Z) : string :=
  let len := Z.of_nat (String.length s) in
  let st := if start <? 0 then Z.max (len + start) 0 else start in
  String.substring (Z.to_nat st) (String.length s - Z.to_nat st) s.

(** [s.split(sep)] for a one-character separator. *)
Fixpoint js_split (sep : ascii) (s : string) : list string :=
  match s with
  | EmptyString => [EmptyString]
  | String c s' =>
      let rest := js_split sep s' in
      if ascii_dec c sep then EmptyString :: rest
      else match rest with
           | r :: rs => String c r :: rs
           | [] => [String c EmptyString]
           end
  end.

(** [arr.shift()] read for its result: the first element, [None] standing
    for [undefined] on an empty array. *)
Definition js_shift {A} (l : list A) : option A :=
  match l with
  | [] => None
  | x :: _ => Some x
  end.

(** [httpExp.exec(id)] with [httpExp = /^https?:\/\//]: the matched text
    [match[0]], or [None] for [null].  The greedy [s?] tries ["https://"]
    first and falls back to ["http://"]. *)
Definition httpExp_exec (id : string) : option string :=
  if String.prefix "https://" id then Some "https://"
  else if String.prefix "http://" id then Some "http://"
  else None.

(** ** Data model *)

(** The record stored in [urls]: [{ isHttps, url }]. *)
Record UrlRecord := mkUrlRecord { isHttps : bool; url : string }.

(** The module picked by [require("follow-redirects")[isHttps ? "https" : "http"]]. *)
Inductive transport := Http | Https.

(** One outbound [http.get(url, ...)] call. *)
Record request := mkRequest { req_transport : transport; req_url : string }.

(** The promise returned by the inner [load]; it resolves with the response
    body, which depends on the network and is not modelled. *)
Inductive promise := Fetching (r : request).

(** The plugin's closure state: the [urls] map, and the trace of network
    requests issued so far (most recent last). *)
Record state := mkState { urls : gmap string UrlRecord; requests : list request }.

Definition empty_state : state := mkState ∅ [].

(** The hook calls the bundler can make on the plugin. *)
Inductive call := Resolve (id : string) | Load (id : string).

(** ** The plugin of [src/index.js] (lines 235-278) *)
Module IndexJs.

(** The inner [function load(url, isHttps)]: picks the [follow-redirects]
    transport and issues one [http.get(url, ...)], returning the promise of
    the accumulated body. *)
Definition http_load (url : string) (isHttps : bool) (st : state) : promise * state :=
  let req := mkRequest (if isHttps then Https else Http) url in
  (Fetching req, mkState (urls st) (requests st ++ [req])).

(** [resolveId(id)]; [None] in the first component is [undefined]. *)
Definition resolveId (id : string) (st : state) : option string * state :=
  match httpExp_exec id with
  | Some m =>
      let record := mkUrlRecord (String.eqb m "https://") id in
      let idx := js_lastIndexOf "/"%char id in
      let pth := js_substr id (idx + 1) in
      match js_shift (js_split "."%char pth) with
      | Some newId => (Some newId, mkState (<[newId := record]> (urls st)) (requests st))
      | None => (None, st) (* unreachable: [split] never returns [] *)
      end
  | None => (None, st)
  end.

(** [load(id)]: [urls.has(id)] then [urls.get(id)]. *)
Definition load (id : string) (st : state) : option promise * state :=
  match urls st !! id with
  | Some r => let '(p, st') := http_load (url r) (isHttps r) st in (Some p, st')
  | None => (None, st)
  end.

Definition step (c : call) (st : state) : state :=
  match c with
  | Resolve id => snd (resolveId id st)
  | Load id => snd (load id st)
  end.

Fixpoint run (cs : list call) (st : state) : state :=
  match cs with
  | [] => st
  | c :: cs' => run cs' (step c st)
  end.

End IndexJs.

(** ** The plugin of [src/unnamed/part_000] (lines 180-221) *)
Module Part000.

Definition http_load (url : string) (isHttps : bool) (st : state) : promise * state :=
  let req := mkRequest (if isHttps then Https else Http) url in
  (Fetching req, mkState (urls st) (requests st ++ [req])).

Definition resolveId (id : string) (st : state) : option string * state :=
  match httpExp_exec id with
  | Some m =>
      let record := mkUrlRecord (String.eqb m "https://") id in
      let idx := js_lastIndexOf "/"%char id in
      let pth := js_substr id (idx + 1) in
      match js_shift (js_split "."%char pth) with
      | Some newId => (Some newId, mkState (<[newId := record]> (urls st)) (requests st))
      | None => (None, st) (* unreachable: [split] never returns [] *)
      end
  | None => (None, st)
  end.

Definition load (id : string) (st : state) : option promise * state :=
  match urls st !! id with
  | Some r => let '(p, st') := http_load (url r) (isHttps r) st in (Some p, st')
  | None => (None, st)
  end.

End Part000.

(** ** The build configuration around the plugin ([run], [compile], [tsc],
    [minify], [resolveUrls]) *)

(** JS truthiness of a string-valued field or flag ([None] is [undefined]). *)
Definition js_truthy (v : option string) : bool :=
  match v with Some s => negb (String.eqb s "") | None => false end.

(** [a || b] on string-valued fields. *)
Definition js_or (a b : option string) : option string :=
  if js_truthy a then a else b.

(** [a || "literal"]. *)
Definition js_or_str (a : option string) (d : string) : string :=
  match a with Some s => if String.eqb s "" then d else s | None => d end.

(** [if (v) { ... f(v) ... } else d] on a string-valued field. *)
Definition js_when {A} (v : option string) (f : string -> A) (d : A) : A :=
  match v with Some s => if String.eqb s "" then d else f s | None => d end.

(** [arr.join(sep)]; a template literal [`${arr}`] is [arr.join(",")]. *)
Fixpoint js_join (sep : string) (l : list string) : string :=
  match l with
  | [] => ""
  | [x] => x
  | x :: l' => x +:+ sep +:+ js_join sep l'
  end.

(** JSON values read from [package.json]; objects and arrays are kept by
    reference, as [Object.assign] copies them shallowly. *)
Inductive jsval :=
  | JBool (b : bool) | JNum (z : Z) | JStr (s : string) | JNull | JRef (p : positive).

(** [pkg.minify]; [None] stands for a missing or falsy field. *)
Record minify_opts := mkMinifyOpts {
  mo_compress : option (gmap string jsval);
  mo_mangle : option (gmap string jsval) }.

(** The fields of [package.json] the code reads.  Only the truthiness of
    [pkg.browser] is ever used. *)
Record pkg_json := mkPkg {
  pkg_source : option string; pkg_main : option string; pkg_module : option string;
  pkg_unpkg : option string; pkg_browser : bool; pkg_name : option string;
  pkg_minify : option minify_opts }.

(** [cli.flags] as read by the code (both spellings of aliased flags). *)
Record cli_flags := mkFlags {
  fl_output : option string; fl_o : option string; fl_format : option string;
  fl_f : option string; fl_external : option string; fl_e : option string;
  fl_chunks : option string; fl_name : option string; fl_exports : option string;
  fl_out : option string; fl_minify : bool; fl_watch : bool }.

(** The rollup plugins [compile] can put in its list; [PHttp] is a fresh
    [http()] instance (an [empty_state]).  Of [terser]'s options the
    constants [sourcemap], [warnings] and [ecma] are left out. *)
Inductive plugin :=
  | PJson
  | PNodeResolve (browser : option bool)
  | PCommonjs (include_node_modules : bool)
  | PGlobals | PBuiltins | PHttp
  | PTypescript (cacheRoot : string)
  | PTerser (compress : gmap string jsval) (toplevel : bool) (mangle : gmap string jsval).

(** [[...].filter(Boolean)]; [None] is the [false] of [tsc] and [minify]. *)
Fixpoint filter_Boolean (l : list (option plugin)) : list plugin :=
  match l with
  | [] => []
  | Some p :: l' => p :: filter_Boolean l'
  | None :: l' => filter_Boolean l'
  end.

(** Rollup's input options built by [compile] ([treeshake] is constant). *)
Record read_options := mkRead {
  ro_input : string; ro_external : list string;
  ro_manualChunks : option (gmap string (list (option string)));
  ro_plugins : list plugin }.

(** Rollup's output options; [None] is an absent property, and [wo_dir] and
    [wo_name] hold a value that may itself be [undefined]. *)
Record write_options := mkWrite {
  wo_format : string; wo_file : option string; wo_dir : option (option string);
  wo_exports : string; wo_name : option (option string);
  wo_chunkFileNames : option string }.

(** What [compile] hands to rollup: [watch(...)] or [rollup(...)] then
    [bundle.write(...)]. *)
Inductive build := Watch (ro : read_options) (wo : write_options)
                 | Bundle (ro : read_options) (wo : write_options).

(** An uncaught exception of the source. *)
Inductive outcome (A : Type) := Ok (a : A) | ReferenceError (name : string).
Arguments Ok {A} a.
Arguments ReferenceError {A} name.

(** The calls [run] makes ([compile] is awaited in order), or [cli.showHelp()];
    console output is not recorded. *)
Inductive action := ShowHelp | Compile (source outFile outFormat : string).

Definition nodeExternals : list string :=
  ["url"; "http"; "util"; "https"; "zlib"; "stream"; "path"; "crypto"; "buffer";
   "string_decoder"; "querystring"; "punycode"; "child_process"; "events"].

(** [obj[k] = v] on a plain object: assigning ["__proto__"] replaces the
    prototype and creates no own key. *)
Definition js_set {A} (k : string) (v : A) (m : gmap string A) : gmap string A :=
  if String.eqb k "__proto__" then m else <[k := v]> m.

(** [Object.assign(target, src)] on own keys (see [js_set] for ["__proto__"]). *)
Definition js_assign (target src : gmap string jsval) : gmap string jsval :=
  delete "__proto__" src ∪ target.

(** [cli.flags.chunks.split(",").forEach(chunk => { let [name, entry] =
    chunk.split("="); chunks[name] = [entry] })] starting from [{}]. *)
Definition parse_chunks (spec : string) : gmap string (list (option string)) :=
  fold_left (fun chunks chunk =>
      let parts := js_split "="%char chunk in
      js_set (default "" (head parts)) [nth_error parts 1] chunks)
    (js_split ","%char spec) ∅.

Definition default_compress : gmap string jsval :=
  <["keep_infinity" := JBool true]> (<["pure_getters" := JBool true]>
    (<["passes" := JNum 10]> ∅)).

(** [minify(outFormat)], the same in both files. *)
Definition minify (pkg : pkg_json) (flags : cli_flags) (outFormat : string) : option plugin :=
  if negb (fl_minify flags) then None
  else
    let minifyOptions := default (mkMinifyOpts None None) (pkg_minify pkg) in
    Some (PTerser (js_assign default_compress (default ∅ (mo_compress minifyOptions)))
                  (String.eqb outFormat "cjs" || String.eqb outFormat "es")
                  (js_assign ∅ (default ∅ (mo_mangle minifyOptions)))).

(** [src/index.js]: [tsc], [compile], [resolveUrls] and [run]. [extname] is
    Node's [path.extname], left as a parameter. *)
Module IndexJsCli.

(** [tsc(entry, format)] (lines 189-213). *)
Definition tsc (extname : string -> string) (entry format : string) : option plugin :=
  if String.eqb (extname entry) ".ts" || String.eqb (extname entry) ".tsx"
  then Some (PTypescript ("./node_modules/.cache/.rts2_cache_" +:+ format))
  else None.

(** [compile(source, outFile, outFormat)] (lines 94-181); [outIsDir] is
    [fs.lstatSync(outFile).isDirectory()], [false] when [lstatSync] throws. *)
Definition compile (extname : string -> string) (pkg : pkg_json) (flags : cli_flags)
    (outIsDir : bool) (source outFile outFormat : string) : build :=
  let isBuiltForNode := String.eqb outFormat "cjs" in
  let externals := if isBuiltForNode then nodeExternals else [] in
  let externalList := js_or (fl_external flags) (fl_e flags) in
  let externals := js_when externalList (fun s => externals ++ js_split ","%char s) externals in
  let chunks := js_when (fl_chunks flags) (fun s => Some (parse_chunks s)) None in
  let plugins := filter_Boolean
    [Some PJson; Some (PNodeResolve (Some (String.eqb outFormat "es")));
     Some (PCommonjs true); Some PGlobals; Some PBuiltins; Some PHttp;
     tsc extname source outFormat; minify pkg flags outFormat] in
  let readOptions := mkRead source externals chunks plugins in
  let writeOptions := mkWrite outFormat (Some outFile) None
    (js_or_str (fl_exports flags) "named")
    (if js_truthy (fl_name flags) || String.eqb outFormat "umd"
     then Some (js_or (fl_name flags) (pkg_name pkg)) else None)
    None in
  let writeOptions :=
    if outIsDir then
      mkWrite (wo_format writeOptions) None (Some (Some outFile)) (wo_exports writeOptions)
        (wo_name writeOptions) (if chunks then Some "[name].js" else None)
    else writeOptions in
  if fl_watch flags then Watch readOptions writeOptions else Bundle readOptions writeOptions.

(** The [transform] of [resolveUrls]:
    [`https://cdn.pika.dev/${name}/v${version[0]}`]; [version[0]] of [""] is
    [undefined]. *)
Definition pika_transform (name version : string) : string :=
  "https://cdn.pika.dev/" +:+ name +:+ "/v" +:+
  match version with EmptyString => "undefined" | String c _ => String c EmptyString end.

Inductive url_plugin := UrlResolve | Unpkg (autoDiscoverExternals : bool).

(** [resolveUrls(outFormat)] (lines 183-187): the plugin and the transform it
    is given ([None] for [urlResolve()]). *)
Definition resolveUrls (outFormat : string) : url_plugin * option (string -> string -> string) :=
  if negb (String.eqb outFormat "es") then (UrlResolve, None)
  else (Unpkg false, Some pika_transform).

(** [run()] (lines 280-304). *)
Definition run (pkg : pkg_json) (input : list string) (flags : cli_flags) : list action :=
  if negb (js_truthy (pkg_source pkg)) && Nat.eqb (List.length input) 0 then [ShowHelp]
  else if Nat.eqb (List.length input) 0 then
    (* [pkg.source] is truthy here *)
    let source := default "" (pkg_source pkg) in
    js_when (pkg_main pkg)
      (fun m => [Compile source m (if pkg_browser pkg then "es" else "cjs")]) [] ++
    js_when (pkg_module pkg) (fun m => [Compile source m "es"]) [] ++
    js_when (pkg_unpkg pkg) (fun m => [Compile source m "umd"]) []
  else
    [Compile (js_join "," input)
       (js_or_str (js_or (fl_output flags) (fl_o flags)) "baked.js")
       (js_or_str (js_or (fl_format flags) (fl_f flags)) "cjs")].

End IndexJsCli.

(** [src/unnamed/part_000]: [tsc], [compile] and [run]. *)
Module Part000Cli.

(** [tsc(entry)] (lines 137-158): the guard [ext !== ".ts" || ext !== ".tsx"];
    past it the body reads the undeclared [format]. *)
Definition tsc (extname : string -> string) (entry : string) : outcome (option plugin) :=
  if negb (String.eqb (extname entry) ".ts") || negb (String.eqb (extname entry) ".tsx")
  then Ok None
  else ReferenceError "format".

(** [compile(outFile, outFormat)] (lines 64-135); the input is [pkg.source],
    a string once the top-level [pkg.source.length] check has passed. *)
Definition compile (extname : string -> string) (pkg : pkg_json) (flags : cli_flags)
    (outIsDir : bool) (outFile outFormat : string) : outcome build :=
  let source := default "" (pkg_source pkg) in
  let isBuiltForNode := String.eqb outFormat "cjs" in
  let externals := if isBuiltForNode then nodeExternals else [] in
  let externalList := js_or (fl_external flags) (fl_e flags) in
  let externals := js_when externalList (fun s => externals ++ js_split ","%char s) externals in
  let chunks := js_when (fl_chunks flags) (fun s => Some (parse_chunks s)) None in
  match tsc extname source with
  | ReferenceError n => ReferenceError n
  | Ok tscPlugin =>
    let plugins := filter_Boolean
      [Some PJson; Some (PNodeResolve None); Some (PCommonjs false); Some PGlobals;
       Some PBuiltins; Some PHttp; tscPlugin; minify pkg flags outFormat] in
    let readOptions := mkRead source externals chunks plugins in
    let writeOptions := mkWrite outFormat (Some outFile) None
      (js_or_str (fl_exports flags) "named")
      (if js_truthy (fl_name flags) || String.eqb outFormat "umd"
       then Some (js_or (fl_name flags) (pkg_name pkg)) else None)
      None in
    let writeOptions :=
      if outIsDir then
        mkWrite (wo_format writeOptions) None (Some (fl_out flags)) (wo_exports writeOptions)
          (wo_name writeOptions) (if chunks then Some "[name].js" else None)
      else writeOptions in
    Ok (Bundle readOptions writeOptions)
  end.

(** [run()] (lines 223-233; defined, never called in the file). *)
Definition run (pkg : pkg_json) : list action :=
  let source := default "" (pkg_source pkg) in
  js_when (pkg_main pkg) (fun m => [Compile source m "cjs"]) [] ++
  js_when (pkg_module pkg) (fun m => [Compile source m "es"]) [] ++
  js_when (pkg_unpkg pkg) (fun m => [Compile source m "umd"]) [].

End Part000Cli.

(** The options a [build] hands to rollup. *)
Definition build_read (b : build) : read_options :=
  match b with Watch ro _ | Bundle ro _ => ro end.
Definition build_write (b : build) : write_options :=
  match b with Watch _ wo | Bundle _ wo => wo end.

(** The [(name, [entry])] pairs of a [--chunks] value, in order. *)
Definition chunk_entries (spec : string) : list (string * list (option string)) :=
  map (fun chunk => let parts := js_split "="%char chunk in
                    (default "" (head parts), [nth_error parts 1]))
      (js_split ","%char spec).

(** The value of the last pair with key [k]. *)
Fixpoint assoc_last {A} (k : string) (l : list (string * A)) : option A :=
  match l with
  | [] => None
  | (k', v) :: l' =>
      match assoc_last k l' with
      | Some w => Some w
      | None => if String.eqb k k' then Some v else None
      end
  end.

(** ** Reading of the spec: the text of a segment before its first ['.'] *)
Fixpoint spec_before_first_dot (s : string) : string :=
  match s with
  | EmptyString => EmptyString
  | String c s' => if ascii_dec c "."%char then EmptyString
                   else String c (spec_before_first_dot s')
  end.

(** A specifier matches [^https?://]. *)
Definition spec_is_http (id : string) : bool :=
  String.prefix "http://" id || String.prefix "https://" id.

Example resolve_util :
  fst (IndexJs.resolveId "https://example.com/lib/util.js" empty_state) = Some "util".
Proof. reflexivity. Qed.
Example resolve_trailing :
  fst (IndexJs.resolveId "https://example.com/" empty_state) = Some "".
Proof. reflexivity. Qed.
Example resolve_local :
  fst (IndexJs.resolveId "./local/file.js" empty_state) = None.
Proof. reflexivity. Qed.

(** ** Facts about the string primitives *)

Lemma string_app_nil (s : string) : String.append EmptyString s = s.
Proof. reflexivity. Qed.

Lemma string_app_cons (a : ascii) (s1 s2 : string) :
  String.append (String a s1) s2 = String a (String.append s1 s2).
Proof. reflexivity. Qed.

Lemma string_length_append (s1 s2 : string) :
  String.length (String.append s1 s2) = (String.length s1 + String.length s2)%nat.
Proof.
  induction s1; [reflexivity|]. rewrite string_app_cons. simpl. lia.
Qed.

Lemma js_lastIndexOf_cases (c : ascii) (s : string) :
  (js_lastIndexOf c s = -1 /\ ~ In c (list_ascii_of_string s)) \/
  (exists p rest, s = String.append p (String c rest) /\
     ~ In c (list_ascii_of_string rest) /\
     js_lastIndexOf c s = Z.of_nat (String.length p)).
Proof.
  induction s as [|a s IH]; simpl.
  - left. split; [reflexivity | tauto].
  - destruct IH as [[Hr Hn] | (p & rest & -> & Hn & Hr)].
    + rewrite Hr. simpl. destruct (ascii_dec a c) as [->|Hne].
      * right. exists EmptyString, s. simpl. auto.
      * left. split; [reflexivity|]. intros [H|H]; auto.
    + right. exists (String a p), rest. rewrite Hr.
      destruct (Z.leb_spec 0 (Z.of_nat (String.length p))); [|lia].
      simpl. repeat split; auto. lia.
Qed.

Lemma substring_0_length (s : string) :
  String.substring 0 (String.length s) s = s.
Proof. induction s; simpl; congruence. Qed.

Lemma js_substr_after (p : string) (c : ascii) (rest : string) :
  js_substr (String.append p (String c rest)) (Z.of_nat (String.length p) + 1) = rest.
Proof.
  unfold js_substr.
  destruct (Z.ltb_spec (Z.of_nat (String.length p) + 1) 0); [lia|].
  replace (Z.to_nat (Z.of_nat (String.length p) + 1)) with (S (String.length p)) by lia.
  rewrite string_length_append. simpl.
  replace (String.length p + S (String.length rest) - S (String.length p))%nat
    with (String.length rest) by lia.
  clear H. induction p as [|a p IH].
  - apply substring_0_length.
  - rewrite string_app_cons. exact IH.
Qed.

Lemma js_split_dot_head (s : string) :
  exists tl, js_split "."%char s = spec_before_first_dot s :: tl.
Proof.
  induction s as [|a s [tl IH]]; simpl.
  - eauto.
  - rewrite IH. destruct (ascii_dec a "."%char); eauto.
Qed.

Lemma js_split_not_nil (sep : ascii) (s : string) : js_split sep s <> [].
Proof.
  destruct s as [|a s]; simpl; [discriminate|].
  destruct (ascii_dec a sep); [discriminate|]. destruct (js_split sep s); discriminate.
Qed.

Lemma prefix_app (s1 s2 : string) :
  String.prefix s1 s2 = true -> exists r, s2 = String.append s1 r.
Proof.
  revert s2. induction s1 as [|a s1 IH]; intros s2 H; simpl.
  - eauto.
  - destruct s2 as [|b s2]; simpl in H; [discriminate|].
    destruct (ascii_dec a b) as [->|]; [|discriminate].
    destruct (IH s2 H) as [r ->]. eauto.
Qed.

Lemma httpExp_exec_match (id : string) :
  spec_is_http id = true ->
  exists m, httpExp_exec id = Some m /\
    String.eqb m "https://" = String.prefix "https://" id /\
    In "/"%char (list_ascii_of_string id).
Proof.
  unfold spec_is_http, httpExp_exec. intros H.
  destruct (String.prefix "https://" id) eqn:Hs.
  - exists "https://". split; [reflexivity|]. split; [reflexivity|].
    destruct (prefix_app _ _ Hs) as [r ->]. simpl. tauto.
  - rewrite orb_false_r in H. rewrite H. exists "http://".
    split; [reflexivity|]. split; [reflexivity|].
    destruct (prefix_app _ _ H) as [r ->]. simpl. tauto.
Qed.

Lemma httpExp_exec_nomatch (id : string) :
  spec_is_http id = false -> httpExp_exec id = None.
Proof.
  unfold spec_is_http, httpExp_exec. intros H.
  apply orb_false_iff in H as [H1 H2]. rewrite H2, H1. reflexivity.
Qed.

(** The record [resolveId] stores for a matching specifier. *)
Definition record_of (id : string) : UrlRecord :=
  mkUrlRecord (String.prefix "https://" id) id.

Lemma resolveId_http (id : string) (st : state) :
  spec_is_http id = true ->
  exists p rest,
    id = String.append p (String "/"%char rest) /\
    ~ In "/"%char (list_ascii_of_string rest) /\
    IndexJs.resolveId id st =
      (Some (spec_before_first_dot rest),
       mkState (<[spec_before_first_dot rest := record_of id]> (urls st)) (requests st)).
Proof.
  intros H. destruct (httpExp_exec_match id H) as (m & Hm & Heq & Hin).
  destruct (js_lastIndexOf_cases "/"%char id) as [[_ Hn] | (p & rest & Hid & Hn & Hr)];
    [contradiction|].
  exists p, rest. split; [exact Hid|]. split; [exact Hn|].
  assert (Hs : js_substr id (Z.of_nat (String.length p) + 1) = rest)
    by (rewrite Hid; apply js_substr_after).
  unfold IndexJs.resolveId. rewrite Hm, Hr, Heq, Hs.
  destruct (js_split_dot_head rest) as [tl ->]. reflexivity.
Qed.

Lemma resolveId_not_http (id : string) (st : state) :
  spec_is_http id = false -> IndexJs.resolveId id st = (None, st).
Proof.
  intros H. unfold IndexJs.resolveId. rewrite (httpExp_exec_nomatch id H). reflexivity.
Qed.

(** The result of [resolveId] as a function of the specifier alone. *)
Definition short_id (id : string) : option string :=
  fst (IndexJs.resolveId id empty_state).

Lemma httpExp_exec_some (id m : string) :
  httpExp_exec id = Some m -> String.eqb m "https://" = String.prefix "https://" id.
Proof.
  unfold httpExp_exec.
  destruct (String.prefix "https://" id); [intros [= <-]; reflexivity|].
  destruct (String.prefix "http://" id); [intros [= <-]; reflexivity | discriminate].
Qed.

Lemma resolveId_shape (id : string) (st : state) :
  IndexJs.resolveId id st =
    match short_id id with
    | Some k => (Some k, mkState (<[k := record_of id]> (urls st)) (requests st))
    | None => (None, st)
    end.
Proof.
  unfold short_id, IndexJs.resolveId, record_of.
  destruct (httpExp_exec id) as [m|] eqn:E; [|reflexivity].
  rewrite (httpExp_exec_some id m E).
  destruct (js_shift _); reflexivity.
Qed.

Lemma in_app_sep (p : string) (c : ascii) (r : string) :
  In c (list_ascii_of_string (String.append p (String c r))).
Proof.
  induction p as [|a p IH]; [left; reflexivity|].
  rewrite string_app_cons. right. exact IH.
Qed.

Lemma last_sep_unique (c : ascii) (p p' r r' : string) :
  String.append p (String c r) = String.append p' (String c r') ->
  ~ In c (list_ascii_of_string r) -> ~ In c (list_ascii_of_string r') -> r = r'.
Proof.
  revert p'. induction p as [|a p IH]; intros [|b p'] Heq Hr Hr'.
  - rewrite !string_app_nil in Heq. congruence.
  - rewrite string_app_nil, string_app_cons in Heq. injection Heq as -> ->.
    exfalso. apply Hr, in_app_sep.
  - rewrite string_app_nil, string_app_cons in Heq. injection Heq as -> <-.
    exfalso. apply Hr', in_app_sep.
  - rewrite !string_app_cons in Heq. injection Heq as _ Heq. eauto.
Qed.

Lemma short_id_http (id p rest : string) :
  spec_is_http id = true ->
  id = String.append p (String "/"%char rest) ->
  ~ In "/"%char (list_ascii_of_string rest) ->
  short_id id = Some (spec_before_first_dot rest).
Proof.
  intros H Hid Hn. unfold short_id.
  destruct (resolveId_http id empty_state H) as (p' & rest' & Hid' & Hn' & ->).
  simpl. f_equal. f_equal. symmetry.
  apply (last_sep_unique "/"%char p p'); congruence.
Qed.

(** The request [http_load] issues for a stored record. *)
Definition request_of (r : UrlRecord) : request :=
  mkRequest (if isHttps r then Https else Http) (url r).

Lemma load_found (k : string) (r : UrlRecord) (st : state) :
  urls st !! k = Some r ->
  IndexJs.load k st =
    (Some (Fetching (request_of r)), mkState (urls st) (requests st ++ [request_of r])).
Proof. intros H. unfold IndexJs.load. rewrite H. reflexivity. Qed.

Lemma load_missing (k : string) (st : state) :
  urls st !! k = None -> IndexJs.load k st = (None, st).
Proof. intros H. unfold IndexJs.load. rewrite H. reflexivity. Qed.

Lemma load_urls (k : string) (st : state) : urls (snd (IndexJs.load k st)) = urls st.
Proof. unfold IndexJs.load. destruct (urls st !! k); reflexivity. Qed.

Lemma step_keeps (c : call) (st : state) (k : string) :
  is_Some (urls st !! k) -> is_Some (urls (IndexJs.step c st) !! k).
Proof.
  intros Hk. destruct c as [id|id]; simpl.
  - rewrite resolveId_shape. destruct (short_id id) as [k'|]; [|exact Hk]. simpl.
    destruct (decide (k' = k)) as [->|Hne].
    + rewrite lookup_insert_eq. eauto.
    + rewrite lookup_insert_ne by exact Hne. exact Hk.
  - rewrite load_urls. exact Hk.
Qed.

Lemma run_keeps (cs : list call) (st : state) (k : string) :
  is_Some (urls st !! k) -> is_Some (urls (IndexJs.run cs st) !! k).
Proof.
  revert st. induction cs as [|c cs IH]; intros st Hk; simpl; [exact Hk|].
  apply IH, step_keeps, Hk.
Qed.

(** Without a [resolveId] returning [k], the entry of [k] is unchanged. *)
Lemma run_lookup_frame (cs : list call) (st : state) (k : string) :
  (forall s, In (Resolve s) cs -> short_id s <> Some k) ->
  urls (IndexJs.run cs st) !! k = urls st !! k.
Proof.
  revert st. induction cs as [|c cs IH]; intros st Hcs; simpl; [reflexivity|].
  rewrite IH by (intros s Hs; apply Hcs; right; exact Hs).
  destruct c as [id|id]; simpl.
  - rewrite resolveId_shape.
    assert (Hne : short_id id <> Some k) by (apply Hcs; left; reflexivity).
    destruct (short_id id) as [k'|]; [|reflexivity]. simpl.
    rewrite lookup_insert_ne; [reflexivity|]. congruence.
  - rewrite load_urls. reflexivity.
Qed.

(** ** Claims *)

(** C1: for a specifier matching [^https?://], [resolveId] returns exactly the
    text after its last ['/'], cut at the first ['.'] of that text; in
    particular ["https://example.com/lib/util.js"] resolves to ["util"]. *)
Theorem resolve_short_id_after_last_slash (id : string) (st : state) :
  spec_is_http id = true ->
  (exists p rest, id = String.append p (String "/"%char rest) /\
                  ~ In "/"%char (list_ascii_of_string rest)) /\
  (forall p rest, id = String.append p (String "/"%char rest) ->
     ~ In "/"%char (list_ascii_of_string rest) ->
     fst (IndexJs.resolveId id st) = Some (spec_before_first_dot rest)) /\
  fst (IndexJs.resolveId "https://example.com/lib/util.js" st) = Some "util".
Proof.
  intros H. split; [|split].
  - destruct (resolveId_http id st H) as (p & rest & Hid & Hn & _). eauto.
  - intros p rest Hid Hn. rewrite resolveId_shape.
    rewrite (short_id_http id p rest H Hid Hn). reflexivity.
  - rewrite resolveId_shape. reflexivity.
Qed.

Lemma resolve_short_id_after_last_slash_witness :
  spec_is_http "https://example.com/lib/util.js" = true /\
  fst (IndexJs.resolveId "https://example.com/lib/util.js" empty_state) = Some "util".
Proof.
  split; [reflexivity|].
  destruct (resolve_short_id_after_last_slash "https://example.com/lib/util.js"
              empty_state eq_refl) as (_ & Hall & _).
  apply (Hall "https://example.com/lib" "util.js"); [reflexivity|].
  simpl. intros Hin. intuition discriminate.
Defined.

(** C3: a specifier not matching [^https?://] resolves to [undefined] and
    leaves the state untouched, e.g. ["./local/file.js"]. *)
Theorem resolve_non_http_undefined (id : string) (st : state) :
  spec_is_http id = false ->
  IndexJs.resolveId id st = (None, st) /\
  IndexJs.resolveId "./local/file.js" st = (None, st).
Proof.
  intros H. split; apply resolveId_not_http; [exact H | reflexivity].
Qed.

Lemma resolve_non_http_undefined_witness :
  spec_is_http "./local/file.js" = false /\
  IndexJs.resolveId "./local/file.js" empty_state = (None, empty_state).
Proof.
  split; [reflexivity|].
  exact (proj1 (resolve_non_http_undefined "./local/file.js" empty_state eq_refl)).
Defined.

(** C5 (counterexample): ["https://example.com/"] matches [^https?://] but
    resolves to the empty identifier. *)
Lemma resolve_empty_identifier :
  spec_is_http "https://example.com/" = true /\
  fst (IndexJs.resolveId "https://example.com/" empty_state) = Some "".
Proof. split; reflexivity. Qed.

(** C5 (amended): a specifier matching [^https?://] always resolves to some
    identifier, and that identifier is empty exactly when the text after the
    last ['/'] is empty or starts with ['.']. *)
Theorem resolve_identifier_empty_iff (id : string) (st : state) :
  spec_is_http id = true ->
  exists p rest k,
    id = String.append p (String "/"%char rest) /\
    ~ In "/"%char (list_ascii_of_string rest) /\
    fst (IndexJs.resolveId id st) = Some k /\
    (k = EmptyString <-> rest = EmptyString \/ exists r, rest = String "."%char r).
Proof.
  intros H. destruct (resolveId_http id st H) as (p & rest & Hid & Hn & ->).
  exists p, rest, (spec_before_first_dot rest). repeat split; [exact Hid | exact Hn | ..].
  - destruct rest as [|a r]; [left; reflexivity|]. simpl.
    destruct (ascii_dec a "."%char) as [->|]; [eauto | discriminate].
  - intros [->|[r ->]]; [reflexivity|]. simpl.
    destruct (ascii_dec "."%char "."%char); [reflexivity | contradiction].
Qed.

Lemma resolve_identifier_empty_iff_witness :
  spec_is_http "https://example.com/lib/.hidden" = true /\
  exists p rest k,
    "https://example.com/lib/.hidden" = String.append p (String "/"%char rest) /\
    ~ In "/"%char (list_ascii_of_string rest) /\
    fst (IndexJs.resolveId "https://example.com/lib/.hidden" empty_state) = Some k /\
    (k = EmptyString <-> rest = EmptyString \/ exists r, rest = String "."%char r).
Proof.
  split; [reflexivity|].
  exact (resolve_identifier_empty_iff "https://example.com/lib/.hidden" empty_state eq_refl).
Defined.

(** C2: after [resolveId(id)] returns [k], and as long as no later
    [resolveId] returns [k] again, [load(k)] issues exactly one request, to
    [id], over HTTPS exactly when [id] begins with ["https://"]. *)
Theorem load_requests_recorded_url (id k : string) (st : state) (cs : list call) :
  fst (IndexJs.resolveId id st) = Some k ->
  (forall s, In (Resolve s) cs -> short_id s <> Some k) ->
  let st' := IndexJs.run cs (snd (IndexJs.resolveId id st)) in
  let req := mkRequest (if String.prefix "https://" id then Https else Http) id in
  IndexJs.load k st' = (Some (Fetching req), mkState (urls st') (requests st' ++ [req])).
Proof.
  intros Hk Hcs st' req.
  assert (H1 : urls (snd (IndexJs.resolveId id st)) !! k = Some (record_of id)).
  { rewrite resolveId_shape in Hk |- *.
    destruct (short_id id) as [k'|]; [|discriminate]. injection Hk as ->.
    apply lookup_insert_eq. }
  apply (load_found k (record_of id)). subst st'.
  rewrite run_lookup_frame by exact Hcs. exact H1.
Qed.

Lemma load_requests_recorded_url_witness :
  fst (IndexJs.resolveId "https://example.com/lib/util.js" empty_state) = Some "util" /\
  IndexJs.load "util"
    (IndexJs.run [Load "util"; Resolve "./local/file.js"]
       (snd (IndexJs.resolveId "https://example.com/lib/util.js" empty_state))) =
  (Some (Fetching (mkRequest Https "https://example.com/lib/util.js")),
   mkState {[ "util" := mkUrlRecord true "https://example.com/lib/util.js" ]}
     [mkRequest Https "https://example.com/lib/util.js";
      mkRequest Https "https://example.com/lib/util.js"]).
Proof.
  split; [reflexivity|].
  refine (load_requests_recorded_url "https://example.com/lib/util.js" "util" empty_state
            [Load "util"; Resolve "./local/file.js"] eq_refl _).
  intros s Hs. simpl in Hs.
  destruct Hs as [Hs|[Hs|[]]]; [discriminate|]. injection Hs as <-. vm_compute. discriminate.
Defined.

(** C4: from the initial state, an identifier no [resolveId] call has
    returned is not a key of [urls], and [load] of it returns [undefined]
    without any request. *)
Theorem load_unresolved_undefined (cs : list call) (k : string) :
  (forall s, In (Resolve s) cs -> short_id s <> Some k) ->
  let st := IndexJs.run cs empty_state in
  urls st !! k = None /\ IndexJs.load k st = (None, st).
Proof.
  intros Hcs st.
  assert (H : urls st !! k = None)
    by (subst st; rewrite run_lookup_frame by exact Hcs; reflexivity).
  split; [exact H | apply load_missing, H].
Qed.

Lemma load_unresolved_undefined_witness :
  IndexJs.load "lib"
    (IndexJs.run [Resolve "https://example.com/lib/util.js"; Load "lib"] empty_state) =
  (None, IndexJs.run [Resolve "https://example.com/lib/util.js"; Load "lib"] empty_state).
Proof.
  refine (proj2 (load_unresolved_undefined
                   [Resolve "https://example.com/lib/util.js"; Load "lib"] "lib" _)).
  intros s Hs. simpl in Hs.
  destruct Hs as [Hs|[Hs|[]]]; [|discriminate]. injection Hs as <-. vm_compute. discriminate.
Defined.

(** C6: two distinct matching specifiers whose last segments agree before
    their first ['.'] resolve to the same identifier; resolving the second
    overwrites the first's record, and [load] then fetches the second. *)
Theorem collision_overwrites (s1 s2 p1 r1 p2 r2 : string) (st : state) :
  s1 <> s2 -> spec_is_http s1 = true -> spec_is_http s2 = true ->
  s1 = String.append p1 (String "/"%char r1) -> ~ In "/"%char (list_ascii_of_string r1) ->
  s2 = String.append p2 (String "/"%char r2) -> ~ In "/"%char (list_ascii_of_string r2) ->
  spec_before_first_dot r1 = spec_before_first_dot r2 ->
  let k := spec_before_first_dot r1 in
  let st1 := snd (IndexJs.resolveId s1 st) in
  let st2 := snd (IndexJs.resolveId s2 st1) in
  fst (IndexJs.resolveId s1 st) = Some k /\
  fst (IndexJs.resolveId s2 st1) = Some k /\
  urls st1 !! k = Some (record_of s1) /\
  urls st2 !! k = Some (record_of s2) /\
  record_of s1 <> record_of s2 /\
  fst (IndexJs.load k st2) =
    Some (Fetching (mkRequest (if String.prefix "https://" s2 then Https else Http) s2)).
Proof.
  intros Hne H1 H2 E1 N1 E2 N2 Hk k st1 st2.
  assert (K1 : short_id s1 = Some k) by exact (short_id_http s1 p1 r1 H1 E1 N1).
  assert (K2 : short_id s2 = Some k)
    by (subst k; rewrite Hk; exact (short_id_http s2 p2 r2 H2 E2 N2)).
  assert (U1 : urls st1 !! k = Some (record_of s1))
    by (subst st1; rewrite resolveId_shape, K1; apply lookup_insert_eq).
  assert (U2 : urls st2 !! k = Some (record_of s2))
    by (subst st2; rewrite resolveId_shape, K2; apply lookup_insert_eq).
  split; [rewrite resolveId_shape, K1; reflexivity|].
  split; [rewrite resolveId_shape, K2; reflexivity|].
  split; [exact U1|]. split; [exact U2|].
  split; [intros [=]; contradiction|].
  rewrite (load_found k (record_of s2) st2 U2). reflexivity.
Qed.

Lemma collision_overwrites_witness :
  fst (IndexJs.load "util"
         (snd (IndexJs.resolveId "http://b.org/util.ts"
                 (snd (IndexJs.resolveId "https://a.com/lib/util.js" empty_state))))) =
  Some (Fetching (mkRequest Http "http://b.org/util.ts")).
Proof.
  refine (proj2 (proj2 (proj2 (proj2 (proj2
    (collision_overwrites "https://a.com/lib/util.js" "http://b.org/util.ts"
       "https://a.com/lib" "util.js" "http://b.org" "util.ts" empty_state
       _ eq_refl eq_refl eq_refl _ eq_refl _ eq_refl)))))).
  - discriminate.
  - simpl. intros Hin. intuition discriminate.
  - simpl. intros Hin. intuition discriminate.
Defined.

Lemma run_loads (n : nat) (k : string) (r : UrlRecord) (st : state) :
  urls st !! k = Some r ->
  IndexJs.run (replicate n (Load k)) st =
    mkState (urls st) (requests st ++ replicate n (request_of r)).
Proof.
  revert st. induction n as [|n IH]; intros st Hr; simpl.
  - rewrite app_nil_r. destruct st; reflexivity.
  - rewrite (load_found k r st Hr). simpl. rewrite IH by exact Hr. simpl.
    rewrite <- app_assoc. reflexivity.
Qed.

(** C7: a key of [urls] stays a key after any further calls, and [n]
    repeated loads of it issue [n] requests (nothing is cached). *)
Theorem keys_persist_loads_refetch (st : state) (k : string) (r : UrlRecord) :
  urls st !! k = Some r ->
  (forall cs, is_Some (urls (IndexJs.run cs st) !! k)) /\
  (forall n, IndexJs.run (replicate n (Load k)) st =
               mkState (urls st) (requests st ++ replicate n (request_of r))) /\
  (forall cs, exists r', urls (IndexJs.run cs st) !! k = Some r' /\
     fst (IndexJs.load k (IndexJs.run cs st)) = Some (Fetching (request_of r'))).
Proof.
  intros Hr. split; [|split].
  - intros cs. apply run_keeps. eauto.
  - intros n. apply run_loads, Hr.
  - intros cs. destruct (run_keeps cs st k (ex_intro _ r Hr)) as [r' Hr'].
    exists r'. split; [exact Hr'|]. rewrite (load_found _ _ _ Hr'). reflexivity.
Qed.

Lemma keys_persist_loads_refetch_witness :
  IndexJs.run (replicate 2%nat (Load "util"))
    (snd (IndexJs.resolveId "https://example.com/lib/util.js" empty_state)) =
  mkState {[ "util" := mkUrlRecord true "https://example.com/lib/util.js" ]}
    [mkRequest Https "https://example.com/lib/util.js";
     mkRequest Https "https://example.com/lib/util.js"].
Proof.
  exact (proj1 (proj2 (keys_persist_loads_refetch
    (snd (IndexJs.resolveId "https://example.com/lib/util.js" empty_state))
    "util" (mkUrlRecord true "https://example.com/lib/util.js") eq_refl)) 2%nat).
Defined.

Lemma run_resolves_requests (ids : list string) (st : state) :
  requests (IndexJs.run (map Resolve ids) st) = requests st.
Proof.
  revert st. induction ids as [|id ids IH]; intros st; simpl; [reflexivity|].
  rewrite IH, resolveId_shape. destruct (short_id id); reflexivity.
Qed.

(** C8: [resolveId] issues no request: its only effect is inserting (or
    overwriting) the entry of the returned identifier, and any sequence of
    [resolveId] calls leaves the request trace unchanged. *)
Theorem resolve_issues_no_request (id : string) (st : state) :
  requests (snd (IndexJs.resolveId id st)) = requests st /\
  snd (IndexJs.resolveId id st) =
    match fst (IndexJs.resolveId id st) with
    | Some k => mkState (<[k := record_of id]> (urls st)) (requests st)
    | None => st
    end /\
  (forall ids : list string, requests (IndexJs.run (map Resolve ids) st) = requests st).
Proof.
  split; [|split].
  - rewrite resolveId_shape. destruct (short_id id); reflexivity.
  - rewrite !resolveId_shape. destruct (short_id id); reflexivity.
  - intros ids. apply run_resolves_requests.
Qed.

(** C9: the identifier [resolveId] returns does not depend on the state, and
    a second identical call returns the same and leaves the state as the
    first call left it. *)
Theorem resolve_deterministic_idempotent (id : string) (st st' : state) :
  fst (IndexJs.resolveId id st) = fst (IndexJs.resolveId id st') /\
  IndexJs.resolveId id (snd (IndexJs.resolveId id st)) = IndexJs.resolveId id st.
Proof.
  rewrite !resolveId_shape. destruct (short_id id) as [k|]; split; try reflexivity.
  simpl. rewrite insert_insert_eq. reflexivity.
Qed.

(** C10: the [resolveId] and [load] hooks of [src/index.js] and of
    [src/unnamed/part_000] agree on every input and state. *)
Theorem copies_equivalent :
  (forall id st, Part000.resolveId id st = IndexJs.resolveId id st) /\
  (forall id st, Part000.load id st = IndexJs.load id st).
Proof. split; intros id st; reflexivity. Qed.

(** ** The build configuration *)

Lemma js_when_cases {A} (v : option string) (f : string -> A) (d : A) :
  (exists s, v = Some s /\ s <> EmptyString /\ js_truthy v = true /\ js_when v f d = f s) \/
  (js_truthy v = false /\ js_when v f d = d).
Proof.
  destruct v as [s|]; [|right; split; reflexivity]. simpl.
  destruct (String.eqb_spec s "") as [->|Hne]; [right; split; reflexivity|].
  left. exists s. repeat split; auto.
Qed.

Lemma js_truthy_some (s : string) : js_truthy (Some s) = true <-> s <> EmptyString.
Proof.
  simpl. destruct (String.eqb_spec s ""); simpl; split; congruence.
Qed.

(** Without a truthy [pkg.source] and without CLI input, [run] only shows
    the help text and compiles nothing. *)
Theorem run_help_without_source (pkg : pkg_json) (flags : cli_flags) :
  js_truthy (pkg_source pkg) = false -> IndexJsCli.run pkg [] flags = [ShowHelp].
Proof. intros H. unfold IndexJsCli.run. rewrite H. reflexivity. Qed.

Lemma run_help_without_source_witness :
  IndexJsCli.run (mkPkg (Some "") (Some "dist/a.js") None None false None None) []
    (mkFlags None None None None None None None None None None false false) = [ShowHelp].
Proof. apply run_help_without_source. reflexivity. Defined.












Lemma parse_chunks_fold (l : list string) (m : gmap string (list (option string))) (k : string) :
  fold_left (fun chunks chunk =>
      let parts := js_split "="%char chunk in
      js_set (default "" (head parts)) [nth_error parts 1] chunks) l m !! k =
  if String.eqb k "__proto__" then m !! k
  else match assoc_last k (map (fun chunk => let parts := js_split "="%char chunk in
                    (default "" (head parts), [nth_error parts 1])) l) with
       | Some v => Some v
       | None => m !! k
       end.
Proof.
  revert m. induction l as [|c l IH]; intros m; simpl.
  - destruct (String.eqb k "__proto__"); reflexivity.
  - rewrite IH. unfold js_set.
    set (n := default "" (head (js_split "="%char c))).
    destruct (String.eqb_spec k "__proto__") as [Hk|Hk].
    + destruct (String.eqb_spec n "__proto__") as [Hn|Hn]; [reflexivity|].
      rewrite lookup_insert_ne by congruence. reflexivity.
    + destruct (assoc_last k _); [reflexivity|].
      destruct (String.eqb_spec k n) as [Hkn|Hkn].
      * destruct (String.eqb_spec n "__proto__"); [congruence|].
        rewrite Hkn. apply lookup_insert_eq.
      * destruct (String.eqb n "__proto__"); [reflexivity|].
        rewrite lookup_insert_ne by congruence. reflexivity.
Qed.

(** [--chunks "n1=e1,n2=e2,..."] maps each name to the one-element list of
    the entry of its last occurrence ([undefined] when it has no ["="]);
    the name ["__proto__"] never becomes a chunk. *)
Theorem parse_chunks_last_wins (spec k : string) :
  parse_chunks spec !! k =
    if String.eqb k "__proto__" then None else assoc_last k (chunk_entries spec).
Proof.
  unfold parse_chunks, chunk_entries. rewrite parse_chunks_fold.
  rewrite lookup_empty. destruct (String.eqb k "__proto__"); [reflexivity|].
  destruct (assoc_last k _); reflexivity.
Qed.

Lemma index_compile_read (extname : string -> string) (pkg : pkg_json) (flags : cli_flags)
    (d : bool) (source outFile fmt : string) :
  build_read (IndexJsCli.compile extname pkg flags d source outFile fmt) =
  mkRead source
    (js_when (js_or (fl_external flags) (fl_e flags))
       (fun s => (if String.eqb fmt "cjs" then nodeExternals else []) ++ js_split ","%char s)
       (if String.eqb fmt "cjs" then nodeExternals else []))
    (js_when (fl_chunks flags) (fun s => Some (parse_chunks s)) None)
    (filter_Boolean
       [Some PJson; Some (PNodeResolve (Some (String.eqb fmt "es")));
        Some (PCommonjs true); Some PGlobals; Some PBuiltins; Some PHttp;
        IndexJsCli.tsc extname source fmt; minify pkg flags fmt]).
Proof. unfold IndexJsCli.compile. destruct (fl_watch flags); reflexivity. Qed.

Lemma index_compile_write (extname : string -> string) (pkg : pkg_json) (flags : cli_flags)
    (d : bool) (source outFile fmt : string) :
  build_write (IndexJsCli.compile extname pkg flags d source outFile fmt) =
  let name := if js_truthy (fl_name flags) || String.eqb fmt "umd"
              then Some (js_or (fl_name flags) (pkg_name pkg)) else None in
  let exports := js_or_str (fl_exports flags) "named" in
  if d then
    mkWrite fmt None (Some (Some outFile)) exports name
      (if js_when (fl_chunks flags) (fun s => Some (parse_chunks s)) None
       then Some "[name].js" else None)
  else mkWrite fmt (Some outFile) None exports name None.
Proof. unfold IndexJsCli.compile. destruct (fl_watch flags), d; reflexivity. Qed.

(** The externals of a build are the Node built-ins when the format is
    ["cjs"], followed by the comma-separated entries of a truthy
    [--external]/[-e]; nothing else. *)
Theorem compile_externals (extname : string -> string) (pkg : pkg_json) (flags : cli_flags)
    (d : bool) (source outFile fmt x : string) :
  In x (ro_external (build_read (IndexJsCli.compile extname pkg flags d source outFile fmt))) <->
  (fmt = "cjs" /\ In x nodeExternals) \/
  (exists s, js_or (fl_external flags) (fl_e flags) = Some s /\ s <> EmptyString /\
             In x (js_split ","%char s)).
Proof.
  rewrite index_compile_read. simpl ro_external.
  destruct (js_when_cases (js_or (fl_external flags) (fl_e flags))
     (fun s => (if String.eqb fmt "cjs" then nodeExternals else []) ++ js_split ","%char s)
     (if String.eqb fmt "cjs" then nodeExternals else []))
    as [(s & Hs & Hne & _ & ->)|[Ht ->]];
  destruct (String.eqb_spec fmt "cjs") as [->|Hf];
  rewrite ?in_app_iff; split.
  - intros [H|H]; [left; split; auto | right; eauto].
  - intros [[_ H]|(s' & Hs' & _ & H)]; [left; exact H|].
    right. rewrite Hs in Hs'. injection Hs' as <-. exact H.
  - intros [[]|H]. right. eauto.
  - intros [[? _]|(s' & Hs' & _ & H)]; [contradiction|].
    right. rewrite Hs in Hs'. injection Hs' as <-. exact H.
  - intros H. left. auto.
  - intros [[_ H]|(s' & Hs' & Hne & _)]; [exact H|].
    exfalso. rewrite Hs' in Ht. apply js_truthy_some in Hne. congruence.
  - intros [].
  - intros [[? _]|(s' & Hs' & Hne & _)]; [contradiction|].
    exfalso. rewrite Hs' in Ht. apply js_truthy_some in Hne. congruence.
Qed.

Lemma js_when_chunks_some (flags : cli_flags) :
  is_Some (js_when (fl_chunks flags) (fun s => Some (parse_chunks s)) None) <->
  js_truthy (fl_chunks flags) = true.
Proof.
  destruct (js_when_cases (fl_chunks flags) (fun s => Some (parse_chunks s)) None)
    as [(s & _ & _ & Ht & ->)|[Ht ->]]; rewrite Ht; split; eauto; try discriminate.
  intros [? [=]].
Qed.

(** The output [name] is set exactly when [--name] is truthy or the format is
    ["umd"], and then it is [--name], else [pkg.name] (possibly
    [undefined]); [exports] defaults to ["named"]. *)
Theorem compile_write_name_exports (extname : string -> string) (pkg : pkg_json)
    (flags : cli_flags) (d : bool) (source outFile fmt : string) :
  let wo := build_write (IndexJsCli.compile extname pkg flags d source outFile fmt) in
  wo_format wo = fmt /\
  (is_Some (wo_name wo) <-> js_truthy (fl_name flags) = true \/ fmt = "umd") /\
  (js_truthy (fl_name flags) = true -> wo_name wo = Some (fl_name flags)) /\
  (js_truthy (fl_name flags) = false -> fmt = "umd" -> wo_name wo = Some (pkg_name pkg)) /\
  (js_truthy (fl_exports flags) = false -> wo_exports wo = "named").
Proof.
  intros wo.
  assert (Hwo : wo_format wo = fmt /\
    wo_name wo = (if js_truthy (fl_name flags) || String.eqb fmt "umd"
                  then Some (js_or (fl_name flags) (pkg_name pkg)) else None) /\
    wo_exports wo = js_or_str (fl_exports flags) "named")
    by (subst wo; rewrite index_compile_write; destruct d; repeat split).
  destruct Hwo as (-> & -> & ->). split; [reflexivity|].
  unfold js_or. split; [|split; [|split]].
  - destruct (js_truthy (fl_name flags)), (String.eqb_spec fmt "umd"); simpl;
      split; intros H; try (destruct H as [? [=]]); intuition (eauto; discriminate).
  - intros ->. reflexivity.
  - intros -> ->. reflexivity.
  - intros Ht. unfold js_or_str. destruct (fl_exports flags) as [e|]; [|reflexivity]. simpl in Ht.
    destruct (String.eqb e ""); [reflexivity | discriminate].
Qed.

Lemma compile_write_name_exports_witness :
  wo_name (build_write (IndexJsCli.compile (fun _ => ".js")
    (mkPkg (Some "src/a.js") None None None false (Some "mylib") None)
    (mkFlags None None None None None None None None None None false false)
    false "src/a.js" "dist/a.js" "umd")) = Some (Some "mylib").
Proof.
  exact (proj1 (proj2 (proj2 (proj2 (compile_write_name_exports (fun _ => ".js")
    (mkPkg (Some "src/a.js") None None None false (Some "mylib") None)
    (mkFlags None None None None None None None None None None false false)
    false "src/a.js" "dist/a.js" "umd")))) eq_refl eq_refl).
Defined.

(** When [outFile] is a directory the build writes into it ([dir] set,
    [file] removed) and names chunks ["[name].js"] exactly when [--chunks]
    is truthy; otherwise it writes [outFile] with neither [dir] nor
    [chunkFileNames]. *)
Theorem compile_output_dir (extname : string -> string) (pkg : pkg_json)
    (flags : cli_flags) (d : bool) (source outFile fmt : string) :
  let wo := build_write (IndexJsCli.compile extname pkg flags d source outFile fmt) in
  (d = true -> wo_file wo = None /\ wo_dir wo = Some (Some outFile) /\
     (wo_chunkFileNames wo = Some "[name].js" <-> js_truthy (fl_chunks flags) = true) /\
     (wo_chunkFileNames wo = None <-> js_truthy (fl_chunks flags) = false)) /\
  (d = false -> wo_file wo = Some outFile /\ wo_dir wo = None /\ wo_chunkFileNames wo = None).
Proof.
  intros wo. subst wo. rewrite index_compile_write.
  split; intros ->; [|repeat split]. cbn.
  split; [reflexivity|]. split; [reflexivity|].
  pose proof (js_when_chunks_some flags) as Hc.
  destruct (js_when (fl_chunks flags) (fun s => Some (parse_chunks s)) None);
  destruct (js_truthy (fl_chunks flags)); split; split; intros H; try reflexivity;
  try discriminate; exfalso; destruct Hc as [Hc1 Hc2];
  first [ specialize (Hc1 ltac:(eauto)); discriminate
        | specialize (Hc2 eq_refl); destruct Hc2; discriminate ].
Qed.

Lemma compile_output_dir_witness :
  wo_chunkFileNames (build_write (IndexJsCli.compile (fun _ => ".js")
    (mkPkg (Some "src/a.js") None None None false None None)
    (mkFlags None None None None None None (Some "a=src/a.js") None None None false false)
    true "src/a.js" "dist" "es")) = Some "[name].js".
Proof.
  apply (proj1 (compile_output_dir (fun _ => ".js")
    (mkPkg (Some "src/a.js") None None None false None None)
    (mkFlags None None None None None None (Some "a=src/a.js") None None None false false)
    true "src/a.js" "dist" "es") eq_refl).
  reflexivity.
Defined.

Ltac in_list_solve := simpl; repeat (first [left; reflexivity | right]).

(** The plugin list of a build starts with [json], [node-resolve] (browser
    resolution exactly for ["es"]), [commonjs], [globals], [builtins] and one
    fresh [http()] resolver, which occurs nowhere else; the TypeScript plugin
    follows exactly when [extname(source)] is [".ts"] or [".tsx"], with a
    per-format cache directory, and [terser] exactly when [--minify] is set. *)
Theorem compile_plugins (extname : string -> string) (pkg : pkg_json) (flags : cli_flags)
    (d : bool) (source outFile fmt : string) :
  let ps := ro_plugins (build_read (IndexJsCli.compile extname pkg flags d source outFile fmt)) in
  exists rest,
    ps = [PJson; PNodeResolve (Some (String.eqb fmt "es")); PCommonjs true; PGlobals;
          PBuiltins; PHttp] ++ rest /\
    ~ In PHttp rest /\
    (forall c, In (PTypescript c) ps <->
       (extname source = ".ts" \/ extname source = ".tsx") /\
       c = "./node_modules/.cache/.rts2_cache_" +:+ fmt) /\
    ((exists a b c, In (PTerser a b c) ps) <-> fl_minify flags = true).
Proof.
  intros ps. subst ps. rewrite index_compile_read. cbn [ro_plugins].
  unfold IndexJsCli.tsc, minify.
  destruct (String.eqb_spec (extname source) ".ts") as [Hts|Hts];
  destruct (String.eqb_spec (extname source) ".tsx") as [Htsx|Htsx];
  destruct (fl_minify flags); simpl;
  eexists; (split; [reflexivity|]);
  (split; [intros H; repeat (destruct H as [H|H]; [discriminate H|]); exact H|]);
  (split; [intros c; split;
    [ intros H; repeat (destruct H as [H|H];
        [first [discriminate H | injection H as <-; split; [auto | reflexivity]]|]);
      contradiction
    | intros [[Hx|Hx] ->]; first [congruence | in_list_solve] ]|]);
  (split;
    [ intros (a & b & c & H); repeat (destruct H as [H|H]; [first [discriminate H | reflexivity]|]);
      contradiction
    | intros H; first [discriminate H | do 3 eexists; in_list_solve] ]).
Qed.

Lemma part000_tsc_never (extname : string -> string) (entry : string) :
  Part000Cli.tsc extname entry = Ok None.
Proof.
  unfold Part000Cli.tsc.
  destruct (String.eqb_spec (extname entry) ".ts") as [->|]; [reflexivity|]. reflexivity.
Qed.

(** In [src/unnamed/part_000] [compile] never fails in [tsc] and never adds
    the TypeScript plugin, whatever the extension of [pkg.source]: the guard
    [ext !== ".ts" || ext !== ".tsx"] holds for every [ext].  Its plugin list
    is [json], [node-resolve], [commonjs], [globals], [builtins], [http()],
    then [terser] exactly when [--minify] is set. *)
Theorem part000_compile_no_typescript (extname : string -> string) (pkg : pkg_json)
    (flags : cli_flags) (d : bool) (outFile fmt : string) :
  exists b, Part000Cli.compile extname pkg flags d outFile fmt = Ok b /\
    (forall c, ~ In (PTypescript c) (ro_plugins (build_read b))) /\
    ro_plugins (build_read b) =
      [PJson; PNodeResolve None; PCommonjs false; PGlobals; PBuiltins; PHttp] ++
      (if fl_minify flags then option_list (minify pkg flags fmt) else []).
Proof.
  unfold Part000Cli.compile. rewrite part000_tsc_never.
  eexists. split; [reflexivity|]. cbn [build_read ro_plugins].
  unfold minify. destruct (fl_minify flags); simpl; split; try reflexivity;
  intros c; intuition discriminate.
Qed.

(** The two [compile]s (the one of [part_000] building [pkg.source]) agree on
    the input, externals, manual chunks and every output option but [dir]:
    for a directory [outFile], [src/index.js] writes into [outFile] while
    [part_000] writes into the [--out] flag ([undefined] when absent). *)
Theorem copies_compile_compare (extname : string -> string) (pkg : pkg_json)
    (flags : cli_flags) (d : bool) (outFile fmt : string) :
  let bi := IndexJsCli.compile extname pkg flags d (default "" (pkg_source pkg)) outFile fmt in
  exists b, Part000Cli.compile extname pkg flags d outFile fmt = Ok b /\
    ro_input (build_read b) = ro_input (build_read bi) /\
    ro_external (build_read b) = ro_external (build_read bi) /\
    ro_manualChunks (build_read b) = ro_manualChunks (build_read bi) /\
    wo_format (build_write b) = wo_format (build_write bi) /\
    wo_file (build_write b) = wo_file (build_write bi) /\
    wo_exports (build_write b) = wo_exports (build_write bi) /\
    wo_name (build_write b) = wo_name (build_write bi) /\
    wo_chunkFileNames (build_write b) = wo_chunkFileNames (build_write bi) /\
    wo_dir (build_write b) = (if d then Some (fl_out flags) else None) /\
    wo_dir (build_write bi) = (if d then Some (Some outFile) else None).
Proof.
  intros bi. subst bi. unfold Part000Cli.compile. rewrite part000_tsc_never.
  eexists. split; [reflexivity|].
  rewrite index_compile_read, index_compile_write.
  destruct d; cbn; repeat split.
Qed.

Lemma js_assign_lookup (target src : gmap string jsval) (k : string) :
  js_assign target src !! k =
    if String.eqb k "__proto__" then target !! k
    else match src !! k with Some v => Some v | None => target !! k end.
Proof.
  unfold js_assign. rewrite lookup_union.
  destruct (String.eqb_spec k "__proto__") as [->|Hk].
  - rewrite lookup_delete_eq. destruct (target !! "__proto__"); reflexivity.
  - rewrite lookup_delete_ne by congruence.
    destruct (src !! k), (target !! k); reflexivity.
Qed.

(** [minify] adds no plugin without [--minify]; with it, [terser] gets
    [toplevel] exactly for ["cjs"] and ["es"], the [compress] options of
    [pkg.minify] over the defaults [keep_infinity: true], [pure_getters:
    true], [passes: 10] (a key ["__proto__"] is never an option), and a
    copy of [pkg.minify.mangle]. *)
Theorem minify_options (pkg : pkg_json) (flags : cli_flags) (fmt : string) :
  let user := default (mkMinifyOpts None None) (pkg_minify pkg) in
  (fl_minify flags = false -> minify pkg flags fmt = None) /\
  (fl_minify flags = true -> exists compress mangle,
     minify pkg flags fmt =
       Some (PTerser compress (String.eqb fmt "cjs" || String.eqb fmt "es") mangle) /\
     (forall k, compress !! k =
        if String.eqb k "__proto__" then None
        else match default ∅ (mo_compress user) !! k with
             | Some v => Some v
             | None => default_compress !! k
             end) /\
     (forall k, mangle !! k =
        if String.eqb k "__proto__" then None else default ∅ (mo_mangle user) !! k)).
Proof.
  intros user. subst user. unfold minify. split; intros ->; [reflexivity|].
  do 2 eexists. split; [reflexivity|]. split; intros k; rewrite js_assign_lookup.
  - destruct (String.eqb_spec k "__proto__") as [->|]; reflexivity.
  - rewrite lookup_empty.
    destruct (String.eqb k "__proto__"); [reflexivity|].
    match goal with |- context [match ?x with Some _ => _ | None => _ end] =>
      destruct x end; reflexivity.
Qed.

Lemma minify_options_witness :
  exists compress mangle,
    minify (mkPkg (Some "src/a.js") None None None false None None)
      (mkFlags None None None None None None None None None None true false) "umd" =
      Some (PTerser compress false mangle) /\
    compress !! "passes" = Some (JNum 10).
Proof.
  destruct (proj2 (minify_options (mkPkg (Some "src/a.js") None None None false None None)
      (mkFlags None None None None None None None None None None true false) "umd") eq_refl)
    as (c & m & Hm & Hc & _).
  exists c, m. split; [exact Hm|]. rewrite Hc. reflexivity.
Defined.


